(** * FundsManagement: the request / response / state-transition core

    A shallow embedding of [src/app/funds/FundsManagement.tsx], the React
    component that holds a bearer token, reads the account snapshot
    ([fetchFunds]) and submits deposits ([depositFunds]).

    The component is modelled as
    - a record [State] with one field per [useState] cell,
    - a small command language [Cmd] in which the two [async] functions are
      written in the order of the source (state setters, [await fetch],
      [setTimeout], [try] / [catch] / [finally]),
    - a [World] that holds the state, the observable effects issued so far,
      the requests in flight and the timers pending, and
    - a [step] function that feeds one event (input edited, button pressed,
      response settled, timer fired) to the world.

    Strings are byte strings (UTF-8); JavaScript numbers that come out of
    [parseFloat] are kept as the decimal they were read from, which decides
    the only numeric test of the source, [parseFloat(x) <= 0], exactly.
    Response bodies are records of the declared interfaces.  A delay is the
    number given to [setTimeout]; the clock is not modelled, and a pending
    timer may fire at any later turn. *)

From Stdlib Require Import ZArith NArith Bool Ascii String List Lia.
From Stdlib Require Import DecimalString.
From stdpp Require Import base list.

Import ListNotations.
Local Open Scope string_scope.
Local Open Scope list_scope.

(* ===================================================================== *)
(** ** JavaScript primitives used by the component *)
(* ===================================================================== *)

Module JS.

(** [!s] on a string: only the empty string is falsy. *)
Definition truthy (s : string) : bool :=
  match s with
  | EmptyString => false
  | String _ _ => true
  end.

(** A Number as [parseFloat] or a JSON body can produce it.  [Decimal neg m e]
    is the double nearest to [(-1)^neg * m * 10^e]. *)
Inductive Number :=
| NaN
| Infinity (neg : bool)
| Decimal (neg : bool) (m : N) (e : Z).

(** A positive decimal [m * 10^e] becomes the double [+0] when it is at most
    [2^-1075], half of the least subnormal (ties go to the even
    significand, which is zero). *)
Definition rounds_to_zero (m : N) (e : Z) : bool :=
  if (0 <=? e)%Z then false
  else (Z.of_N m * 2 ^ 1075 <=? 10 ^ (- e))%Z.

(** [x <= 0].  Every comparison with [NaN] is false; both zeros are
    [<= 0]. *)
Definition le_zero (x : Number) : bool :=
  match x with
  | NaN => false
  | Infinity neg => neg
  | Decimal neg m e => neg || (m =? 0)%N || rounds_to_zero m e
  end.

(** [x > 0]. *)
Definition gt_zero (x : Number) : bool :=
  match x with
  | NaN => false
  | Infinity neg => negb neg
  | Decimal neg m e => negb (neg || (m =? 0)%N || rounds_to_zero m e)
  end.

(** *** [parseFloat] *)

Definition is_ascii_space (c : ascii) : bool :=
  let n := N_of_ascii c in
  ((n =? 9) || (n =? 10) || (n =? 11) || (n =? 12) || (n =? 13) || (n =? 32))%N.

(** The multi-byte members of WhiteSpace and LineTerminator, by their UTF-8
    encoding: U+00A0, U+1680, U+2000..U+200A, U+2028, U+2029, U+202F,
    U+205F, U+3000, U+FEFF. *)
Definition is_space2 (a b : ascii) : bool :=
  ((N_of_ascii a =? 194) && (N_of_ascii b =? 160))%N.

Definition is_space3 (a b c : ascii) : bool :=
  let x := N_of_ascii a in
  let y := N_of_ascii b in
  let z := N_of_ascii c in
  (((x =? 225) && (y =? 154) && (z =? 128))
   || ((x =? 226) && (y =? 128)
       && ((128 <=? z) && (z <=? 138) || (z =? 168) || (z =? 169) || (z =? 175)))
   || ((x =? 226) && (y =? 129) && (z =? 159))
   || ((x =? 227) && (y =? 128) && (z =? 128))
   || ((x =? 239) && (y =? 187) && (z =? 191)))%N.

(** TrimString(_, start). *)
Fixpoint trim_start (s : string) : string :=
  match s with
  | String a r1 =>
      if is_ascii_space a then trim_start r1
      else
        match r1 with
        | String b r2 =>
            if is_space2 a b then trim_start r2
            else
              match r2 with
              | String c r3 => if is_space3 a b c then trim_start r3 else s
              | EmptyString => s
              end
        | EmptyString => s
        end
  | EmptyString => s
  end.

Definition digit_of (c : ascii) : option N :=
  let n := N_of_ascii c in
  if ((48 <=? n) && (n <=? 57))%N then Some (n - 48)%N else None.

(** Reads the longest run of decimal digits, continuing the value [acc];
    returns the value, the number of digits read and the rest. *)
Fixpoint digits (acc : N) (count : nat) (s : string) : N * nat * string :=
  match s with
  | String c r =>
      match digit_of c with
      | Some d => digits (10 * acc + d)%N (S count) r
      | None => (acc, count, s)
      end
  | EmptyString => (acc, count, s)
  end.

(** An optional sign: [true] for [-]. *)
Definition sign (s : string) : bool * string :=
  match s with
  | String c r =>
      if Ascii.eqb c "+" then (false, r)
      else if Ascii.eqb c "-" then (true, r)
      else (false, s)
  | EmptyString => (false, s)
  end.

(** What follows a decimal point, if one is next. *)
Definition after_point (s : string) : option string :=
  match s with
  | String c r => if Ascii.eqb c "." then Some r else None
  | EmptyString => None
  end.

(** ExponentPart, if a complete one starts here; otherwise the literal
    ends before it and the exponent is zero. *)
Definition exponent (s : string) : Z :=
  match s with
  | String c r =>
      if (Ascii.eqb c "e" || Ascii.eqb c "E")%bool then
        let '(neg, r') := sign r in
        let '(v, n, _) := digits 0 0 r' in
        match n with
        | O => 0%Z
        | S _ => if neg then (- Z.of_N v)%Z else Z.of_N v
        end
      else 0%Z
  | EmptyString => 0%Z
  end.

(** StrUnsignedDecimalLiteral: [Infinity], or digits with an optional
    fraction, or a fraction alone, and an optional exponent. *)
Definition unsigned_literal (neg : bool) (s1 : string) : Number :=
  if String.prefix "Infinity" s1 then Infinity neg
  else
    let '(ip, ni, s2) := digits 0 0 s1 in
    match after_point s2 with
    | Some s3 =>
        let '(mant, nf, s4) := digits ip 0 s3 in
        match ni, nf with
        | O, O => NaN
        | _, _ => Decimal neg mant (exponent s4 - Z.of_nat nf)
        end
    | None =>
        match ni with
        | O => NaN
        | S _ => Decimal neg ip (exponent s2)
        end
    end.

(** [parseFloat]: the longest prefix of the trimmed string that is a
    StrDecimalLiteral, or [NaN] when there is none. *)
Definition parseFloat (s : string) : Number :=
  let '(neg, s1) := sign (trim_start s) in
  unsigned_literal neg s1.

(** *** The value of a number field *)

(** A valid floating-point number of HTML: an optional [-]; digits, or a
    point and digits, or both; an optional exponent.  The value of an
    [<input type="number">] is such a string or the empty string. *)
Definition valid_exponent (s3 : string) : bool :=
  match s3 with
  | EmptyString => true
  | String c r =>
      (Ascii.eqb c "e" || Ascii.eqb c "E")
      && (let '(_, r1) := sign r in
          let '(_, ne, r2) := digits 0 0 r1 in
          negb (Nat.eqb ne 0)
          && match r2 with EmptyString => true | String _ _ => false end)
  end.

Definition valid_unsigned (s1 : string) : bool :=
  let '(_, ni, s2) := digits 0 0 s1 in
  match after_point s2 with
  | Some r =>
      let '(_, nf, r') := digits 0 0 r in
      negb (Nat.eqb nf 0) && valid_exponent r'
  | None => negb (Nat.eqb ni 0) && valid_exponent s2
  end.

Definition valid_floating_point_number (s : string) : bool :=
  match s with
  | String c r => if Ascii.eqb c "-" then valid_unsigned r else valid_unsigned s
  | EmptyString => false
  end.

(** The values the field delivers. *)
Definition number_field_value (s : string) : bool :=
  negb (truthy s) || valid_floating_point_number s.

(** A character that can open a valid number after its sign. *)
Definition opens_number (c : ascii) : bool :=
  match digit_of c with
  | Some _ => true
  | None => Ascii.eqb c "."
  end.

(** [`${n}`] for a non-negative integer. *)
Definition show_N (n : N) : string :=
  NilEmpty.string_of_uint (N.to_uint n).

(** What a [catch] clause can receive. *)
Inductive Thrown :=
| ErrorObject (message : string)   (* err instanceof Error *)
| OtherValue.

End JS.

Import JS.

(* ===================================================================== *)
(** ** Data model *)
(* ===================================================================== *)

(** [interface FundsData]: every field is optional. *)
Record FundsData := {
  type : option string;
  email : option string;
  balance : option Number
}.

(** [type PaymentMode = 'NB']. *)
Inductive PaymentMode := NB.

Definition PaymentMode_eqb (a b : PaymentMode) : bool :=
  match a, b with
  | NB, NB => true
  end.

(** [interface DepositRequest]. *)
Record DepositRequest := {
  amount : Number;
  mode : PaymentMode
}.

(** The [data] member of [DepositResponse]. *)
Record DepositData := {
  url : option string
}.

(** [interface DepositResponse]; the field [dr_balance] is [balance] and
    [dr_success] is [success] in the source. *)
Record DepositResponse := {
  dr_success : option bool;
  message : option string;
  dr_balance : option Number;
  data : option DepositData
}.

(** [responseData.data?.url]. *)
Definition data_url (responseData : DepositResponse) : option string :=
  match data responseData with
  | Some d => url d
  | None => None
  end.

(** Truthiness of an optional string: [undefined] and [''] are falsy. *)
Definition truthy_opt (o : option string) : bool :=
  match o with
  | Some s => truthy s
  | None => false
  end.

(** The seven [useState] cells of the component. *)
Record State := {
  funds : option FundsData;
  depositAmount : string;
  depositMode : PaymentMode;
  loading : bool;
  error : string;
  success : string;
  authToken : string
}.

(** The state at mount: the initial values given to [useState]. *)
Definition initial_state : State := {|
  funds := None;
  depositAmount := "";
  depositMode := NB;
  loading := false;
  error := "";
  success := "";
  authToken := ""
|}.

(* ===================================================================== *)
(** ** Requests and responses *)
(* ===================================================================== *)

Inductive Method := GET | POST.

(** The arguments of one [fetch] call.  The body is kept as the object given
    to [JSON.stringify]. *)
Record Request := {
  target : string;
  method : Method;
  headers : list (string * string);
  body : option DepositRequest
}.

(** How a promise settles. *)
Inductive Settled (A : Type) :=
| Rejected (reason : Thrown)
| Fulfilled (value : A).

Arguments Rejected {A} reason.
Arguments Fulfilled {A} value.

(** A [Response]: its status and how [response.json()] settles. *)
Record Response (A : Type) := {
  status : N;
  json : Settled A
}.

Arguments status {A} r.
Arguments json {A} r.

(** [response.ok]: the status is in the range 200..299. *)
Definition in_2xx (st : N) : bool :=
  ((200 <=? st) && (st <=? 299))%N.

Definition ok {A} (response : Response A) : bool :=
  in_2xx (status response).

(* ===================================================================== *)
(** ** Commands *)
(* ===================================================================== *)

(** The calls that write a state cell or reach the browser. *)
Inductive Action :=
| setFunds (d : FundsData)
| setDepositAmount (s : string)
| setLoading (b : bool)
| setError (s : string)
| setSuccess (s : string)
| consoleError (label : string) (err : Thrown)
| windowOpen (href features : string).

(** The body of a function of the component.  [AwaitFunds] and
    [AwaitDeposit] stand for [await fetch(...)] followed by
    [await response.json()]: the continuation gets the settlement of both,
    since the source writes nothing between the two.  [Call] is a call of an
    [async] function that is not awaited; [SetTimeout] registers a
    callback. *)
Inductive Cmd :=
| Return
| Throw (e : Thrown)
| Do (a : Action) (k : Cmd)
| SetTimeout (callback : Cmd) (ms : N) (k : Cmd)
| Call (callee : Cmd) (k : Cmd)
| AwaitFunds (req : Request) (k : Settled (Response FundsData) -> Cmd)
| AwaitDeposit (req : Request) (k : Settled (Response DepositResponse) -> Cmd).

(** [await p] of a settled promise: a rejection is thrown. *)
Definition await {A} (p : Settled A) (k : A -> Cmd) : Cmd :=
  match p with
  | Rejected e => Throw e
  | Fulfilled v => k v
  end.

(** [c1; c2]. *)
Fixpoint seq (c1 c2 : Cmd) : Cmd :=
  match c1 with
  | Return => c2
  | Throw e => Throw e
  | Do a k => Do a (seq k c2)
  | SetTimeout cb ms k => SetTimeout cb ms (seq k c2)
  | Call f k => Call f (seq k c2)
  | AwaitFunds req k => AwaitFunds req (fun r => seq (k r) c2)
  | AwaitDeposit req k => AwaitDeposit req (fun r => seq (k r) c2)
  end.

(** [try { body } catch (err) { handler err }].  A timer callback and a call
    that is not awaited run outside the [try]. *)
Fixpoint try_catch (body : Cmd) (handler : Thrown -> Cmd) : Cmd :=
  match body with
  | Return => Return
  | Throw e => handler e
  | Do a k => Do a (try_catch k handler)
  | SetTimeout cb ms k => SetTimeout cb ms (try_catch k handler)
  | Call f k => Call f (try_catch k handler)
  | AwaitFunds req k => AwaitFunds req (fun r => try_catch (k r) handler)
  | AwaitDeposit req k => AwaitDeposit req (fun r => try_catch (k r) handler)
  end.

(** [try { body } finally { fin }]. *)
Fixpoint try_finally (body fin : Cmd) : Cmd :=
  match body with
  | Return => fin
  | Throw e => seq fin (Throw e)
  | Do a k => Do a (try_finally k fin)
  | SetTimeout cb ms k => SetTimeout cb ms (try_finally k fin)
  | Call f k => Call f (try_finally k fin)
  | AwaitFunds req k => AwaitFunds req (fun r => try_finally (k r) fin)
  | AwaitDeposit req k => AwaitDeposit req (fun r => try_finally (k r) fin)
  end.

Declare Scope cmd_scope.
Delimit Scope cmd_scope with cmd.
Bind Scope cmd_scope with Cmd.

Notation "a ;; k" := (Do a k%cmd)
  (at level 100, k at level 200, right associativity) : cmd_scope.
Notation "'TRY' b 'CATCH' err => h 'FINALLY' f" :=
  (try_finally (try_catch b%cmd (fun err => h%cmd)) f%cmd)
  (at level 10, b at level 200, err name, h at level 200, f at level 200)
  : cmd_scope.


(* ===================================================================== *)
(** ** The component's functions *)
(* ===================================================================== *)

Definition BASE_URL : string := "http://13.202.238.76:3000/api/v1".

(** The [headers] object of both requests. *)
Definition auth_headers (authToken : string) : list (string * string) :=
  [("Content-Type", "application/json");
   ("Authorization", ("Bearer " ++ authToken)%string)].

(** [err instanceof Error ? err.message : 'Unknown error occurred']. *)
Definition message_of (err : Thrown) : string :=
  match err with
  | ErrorObject m => m
  | OtherValue => "Unknown error occurred"
  end.

Definition http_error {A} (response : Response A) : Thrown :=
  ErrorObject ("HTTP error! status: " ++ show_N (status response))%string.

(** The functions close over the state of the render that created them: [r]
    is that state, and [authToken r], [depositAmount r] and [depositMode r]
    are the variables of the source. *)
Definition fetchFunds (r : State) : Cmd :=
  (if negb (truthy (authToken r)) then
     setError "Please enter your Bearer token first" ;;
     Return
   else
     setLoading true ;;
     setError "" ;;
     TRY
       AwaitFunds
         {| target := (BASE_URL ++ "/funds")%string;
            method := GET;
            headers := auth_headers (authToken r);
            body := None |}
         (fun settled =>
            await settled (fun response =>
            if negb (ok response) then Throw (http_error response)
            else
              await (json response) (fun data =>
              setFunds data ;;
              Return)))
     CATCH err =>
       (let errorMessage := message_of err in
        setError ("Failed to fetch funds: " ++ errorMessage)%string ;;
        consoleError "Error fetching funds:" err ;;
        Return)
     FINALLY
       (setLoading false ;;
        Return))%cmd.

(** In the redirect branch the callback reads [responseData.data!.url], the
    value that the test has just found truthy.  The [fetchFunds] of the
    second callback is the one of the same render. *)
Definition depositFunds (r : State) : Cmd :=
  (if negb (truthy (authToken r)) then
     setError "Please enter your Bearer token first" ;;
     Return
   else if negb (truthy (depositAmount r))
           || le_zero (parseFloat (depositAmount r)) then
     setError "Please enter a valid amount" ;;
     Return
   else
     setLoading true ;;
     setError "" ;;
     setSuccess "" ;;
     TRY
       (let requestBody :=
          {| amount := parseFloat (depositAmount r);
             mode := depositMode r |} in
        AwaitDeposit
          {| target := (BASE_URL ++ "/funds/deposit")%string;
             method := POST;
             headers := auth_headers (authToken r);
             body := Some requestBody |}
          (fun settled =>
             await settled (fun response =>
             if negb (ok response) then Throw (http_error response)
             else
               await (json response) (fun responseData =>
               if PaymentMode_eqb (depositMode r) NB
                  && truthy_opt (data_url responseData) then
                 setSuccess "Redirecting to payment gateway..." ;;
                 SetTimeout
                   (windowOpen (default "" (data_url responseData)) "_blank" ;;
                    setSuccess
                      "Payment gateway opened in new tab. Complete your payment there." ;;
                    setDepositAmount "" ;;
                    Return)
                   1500
                   Return
               else
                 setSuccess ("Successfully deposited ₹" ++ depositAmount r)%string ;;
                 setDepositAmount "" ;;
                 SetTimeout
                   (Call (fetchFunds r)
                      (setSuccess "" ;;
                       Return))
                   2000
                   Return))))
     CATCH err =>
       (let errorMessage := message_of err in
        setError ("Failed to deposit funds: " ++ errorMessage)%string ;;
        consoleError "Error depositing funds:" err ;;
        Return)
     FINALLY
       (setLoading false ;;
        Return))%cmd.

(* ===================================================================== *)
(** ** The world the component runs in *)
(* ===================================================================== *)

(** What leaves the component, in the order it happened. *)
Inductive Effect :=
| NetCall (req : Request)
| Opened (href features : string)
| Logged (label : string) (err : Thrown).

(** A request whose response has not settled, with what runs when it does. *)
Inductive Pending :=
| PendingFunds (k : Settled (Response FundsData) -> Cmd)
| PendingDeposit (k : Settled (Response DepositResponse) -> Cmd).

Record Timer := {
  callback : Cmd;
  delay : N
}.

Record World := {
  ui : State;
  effects : list Effect;
  inflight : list Pending;
  timers : list Timer
}.

(** The first render: nothing has happened yet. *)
Definition first_render : World := {|
  ui := initial_state;
  effects := [];
  inflight := [];
  timers := []
|}.

Definition write (f : State -> State) (w : World) : World :=
  {| ui := f (ui w);
     effects := effects w;
     inflight := inflight w;
     timers := timers w |}.

Definition emit (e : Effect) (w : World) : World :=
  {| ui := ui w;
     effects := effects w ++ [e];
     inflight := inflight w;
     timers := timers w |}.

Definition suspend (p : Pending) (w : World) : World :=
  {| ui := ui w;
     effects := effects w;
     inflight := inflight w ++ [p];
     timers := timers w |}.

Definition schedule (t : Timer) (w : World) : World :=
  {| ui := ui w;
     effects := effects w;
     inflight := inflight w;
     timers := timers w ++ [t] |}.

Definition with_funds (d : option FundsData) (s : State) : State :=
  {| funds := d; depositAmount := depositAmount s;
     depositMode := depositMode s; loading := loading s; error := error s;
     success := success s; authToken := authToken s |}.

Definition with_depositAmount (v : string) (s : State) : State :=
  {| funds := funds s; depositAmount := v;
     depositMode := depositMode s; loading := loading s; error := error s;
     success := success s; authToken := authToken s |}.

Definition with_loading (b : bool) (s : State) : State :=
  {| funds := funds s; depositAmount := depositAmount s;
     depositMode := depositMode s; loading := b; error := error s;
     success := success s; authToken := authToken s |}.

Definition with_error (v : string) (s : State) : State :=
  {| funds := funds s; depositAmount := depositAmount s;
     depositMode := depositMode s; loading := loading s; error := v;
     success := success s; authToken := authToken s |}.

Definition with_success (v : string) (s : State) : State :=
  {| funds := funds s; depositAmount := depositAmount s;
     depositMode := depositMode s; loading := loading s; error := error s;
     success := v; authToken := authToken s |}.

Definition with_authToken (v : string) (s : State) : State :=
  {| funds := funds s; depositAmount := depositAmount s;
     depositMode := depositMode s; loading := loading s; error := error s;
     success := success s; authToken := v |}.

Definition perform (a : Action) (w : World) : World :=
  match a with
  | setFunds d => write (with_funds (Some d)) w
  | setDepositAmount v => write (with_depositAmount v) w
  | setLoading b => write (with_loading b) w
  | setError v => write (with_error v) w
  | setSuccess v => write (with_success v) w
  | consoleError label err => emit (Logged label err) w
  | windowOpen href features => emit (Opened href features) w
  end.

(** Runs a command up to its end or to its first [await].  At an [await]
    the request goes out and the rest waits in [inflight]; a caller that did
    not await the call goes on. *)
Fixpoint run (c : Cmd) (w : World) : World :=
  match c with
  | Return => w
  | Throw _ => w
  | Do a k => run k (perform a w)
  | SetTimeout cb ms k => run k (schedule {| callback := cb; delay := ms |} w)
  | Call f k => run k (run f w)
  | AwaitFunds req k => suspend (PendingFunds k) (emit (NetCall req) w)
  | AwaitDeposit req k => suspend (PendingDeposit k) (emit (NetCall req) w)
  end.

(** A call of a function of the component: it is the closure of the current
    render. *)
Definition invoke (f : State -> Cmd) (w : World) : World :=
  run (f (ui w)) w.

(** The callback given to [useEffect]. *)
Definition load_funds_effect (r : State) : Cmd :=
  if truthy (authToken r) then Call (fetchFunds r) Return
  else Return.

(** React's rule for [useEffect(callback, [authToken])]: the callback runs
    after the first render, and after every later render in which
    [authToken] differs from the previous render's.  [previous] is [None]
    for the first render. *)
Definition after_render (previous : option string) (w : World) : World :=
  match previous with
  | None => invoke load_funds_effect w
  | Some p =>
      if String.eqb p (authToken (ui w)) then w
      else invoke load_funds_effect w
  end.

(** The component once mounted. *)
Definition mounted : World := after_render None first_render.

Definition drop_inflight (i : nat) (w : World) : World :=
  {| ui := ui w;
     effects := effects w;
     inflight := delete i (inflight w);
     timers := timers w |}.

Definition drop_timer (i : nat) (w : World) : World :=
  {| ui := ui w;
     effects := effects w;
     inflight := inflight w;
     timers := delete i (timers w) |}.

Inductive Event :=
| TokenInput (value : string)      (* handleTokenChange *)
| AmountInput (value : string)     (* handleAmountChange *)
| RefreshClick                     (* onClick={fetchFunds} *)
| DepositClick                     (* onClick={depositFunds} *)
| FundsSettles (i : nat) (r : Settled (Response FundsData))
| DepositSettles (i : nat) (r : Settled (Response DepositResponse))
| TimerFires (i : nat).

(** One turn of the event loop.  Both buttons are [disabled] while
    [loading]; an event that names no pending request or timer changes
    nothing. *)
Definition step (w : World) (ev : Event) : World :=
  match ev with
  | TokenInput v =>
      after_render (Some (authToken (ui w))) (write (with_authToken v) w)
  | AmountInput v => write (with_depositAmount v) w
  | RefreshClick => if loading (ui w) then w else invoke fetchFunds w
  | DepositClick => if loading (ui w) then w else invoke depositFunds w
  | FundsSettles i r =>
      match inflight w !! i with
      | Some (PendingFunds k) => run (k r) (drop_inflight i w)
      | _ => w
      end
  | DepositSettles i r =>
      match inflight w !! i with
      | Some (PendingDeposit k) => run (k r) (drop_inflight i w)
      | _ => w
      end
  | TimerFires i =>
      match timers w !! i with
      | Some t => run (callback t) (drop_timer i w)
      | None => w
      end
  end.

Definition steps (w : World) (evs : list Event) : World :=
  fold_left step evs w.


(* ===================================================================== *)
(** ** Vocabulary of the specification *)
(* ===================================================================== *)

(** The two requests of the external interface. *)
Definition funds_request (token : string) : Request :=
  {| target := "http://13.202.238.76:3000/api/v1/funds";
     method := GET;
     headers := auth_headers token;
     body := None |}.

Definition deposit_request (token amount : string) (m : PaymentMode) : Request :=
  {| target := "http://13.202.238.76:3000/api/v1/funds/deposit";
     method := POST;
     headers := auth_headers token;
     body := Some {| amount := parseFloat amount; mode := m |} |}.

Definition MissingCredential : string := "Please enter your Bearer token first".
Definition InvalidAmount : string := "Please enter a valid amount".
Definition RedirectingNotice : string := "Redirecting to payment gateway...".
Definition GatewayOpenedNotice : string :=
  "Payment gateway opened in new tab. Complete your payment there.".

(** An amount that parses as a number strictly greater than zero. *)
Definition parses_positive (amount : string) : bool :=
  gt_zero (parseFloat amount).

(** Both preconditions of a deposit hold in the state [s]. *)
Definition deposit_ready (s : State) : bool :=
  truthy (authToken s)
  && truthy (depositAmount s)
  && negb (le_zero (parseFloat (depositAmount s))).

(** The body a successful exchange delivers: a status in 200..299 and a
    body that parses. *)
Definition succeeded {A} (r : Settled (Response A)) : option A :=
  match r with
  | Rejected _ => None
  | Fulfilled response =>
      if ok response then
        match json response with
        | Rejected _ => None
        | Fulfilled a => Some a
        end
      else None
  end.

(** The error a failing exchange ends in: the transport failure, the
    non-success status, or the failure to read the body. *)
Definition failure {A} (r : Settled (Response A)) : option Thrown :=
  match r with
  | Rejected e => Some e
  | Fulfilled response =>
      if ok response then
        match json response with
        | Rejected e => Some e
        | Fulfilled _ => None
        end
      else Some (http_error response)
  end.

(** What the world [w'] issued that [w] had not. *)
Definition issued_since (w w' : World) : list Effect :=
  drop (length (effects w)) (effects w').

(** What the timer of the redirect branch runs. *)
Definition open_gateway (u : string) : Cmd :=
  (windowOpen u "_blank" ;;
   setSuccess GatewayOpenedNotice ;;
   setDepositAmount "" ;;
   Return)%cmd.

(** What the timer of the direct branch runs, in the closure [r]. *)
Definition refresh_after_deposit (r : State) : Cmd :=
  Call (fetchFunds r) (setSuccess "" ;; Return)%cmd.

(* ===================================================================== *)
(** ** Sample runs *)
(* ===================================================================== *)

(** The body of scenario C: a snapshot without an email. *)
Definition savings : FundsData :=
  {| type := Some "savings"; email := None; balance := Some (Decimal false 500 0) |}.

Definition savings_response : Settled (Response FundsData) :=
  Fulfilled {| status := 200; json := Fulfilled savings |}.

(** The body of scenario D: a payment URL. *)
Definition gateway_body : DepositResponse :=
  {| dr_success := None; message := None; dr_balance := None;
     data := Some {| url := Some "https://pay.example/x" |} |}.

Definition gateway_response : Settled (Response DepositResponse) :=
  Fulfilled {| status := 200; json := Fulfilled gateway_body |}.

(** The body of scenario E: no payment URL. *)
Definition direct_body : DepositResponse :=
  {| dr_success := Some true; message := None; dr_balance := None; data := None |}.

Definition direct_response : Settled (Response DepositResponse) :=
  Fulfilled {| status := 200; json := Fulfilled direct_body |}.

(** The token ["abc"] was typed and the fetch that the edit triggered has
    delivered [savings]. *)
Definition signed_in : World :=
  steps mounted [TokenInput "abc"; FundsSettles 0 savings_response].

(** After that, an amount was typed. *)
Definition amount_typed (v : string) : World :=
  step signed_in (AmountInput v).

(* ===================================================================== *)
(** ** What is rendered *)
(* ===================================================================== *)

(** The three forms of the account card. *)
Inductive AccountCard :=
| Skeleton
| AccountRows (type_row email_row balance_row : option string)
| NoAccountData.

(** The parts of the returned tree that depend on the state. *)
Record View := {
  error_box : option string;
  success_box : option string;
  token_input : string;
  refresh_disabled : bool;
  refresh_label : string;
  account_card : AccountCard;
  amount_input : string;
  mode_select : PaymentMode;
  deposit_disabled : bool;
  deposit_label : string
}.

(** [{s && (...{s}...)}]: rendered when [s] is truthy. *)
Definition shown (s : string) : option string :=
  if truthy s then Some s else None.

(** [funds.balance?.toLocaleString() || '0.00'] after the rupee sign.  The
    text of [toLocaleString] depends on the locale of the browser and is a
    parameter. *)
Definition balance_text (toLocaleString : Number -> string) (b : Number) : string :=
  ("₹" ++ (if truthy (toLocaleString b) then toLocaleString b else "0.00"))%string.

(** The [return] of the component. *)
Definition render (toLocaleString : Number -> string) (s : State) : View :=
  {| error_box := shown (error s);
     success_box := shown (success s);
     token_input := authToken s;
     refresh_disabled := loading s;
     refresh_label := if loading s then "Refreshing..." else "Refresh";
     account_card :=
       if loading s && negb (bool_decide (is_Some (funds s))) then Skeleton
       else
         match funds s with
         | Some f =>
             AccountRows
               (type f ≫= shown)
               (email f ≫= shown)
               (balance_text toLocaleString <$> balance f)
         | None => NoAccountData
         end;
     amount_input := depositAmount s;
     mode_select := depositMode s;
     deposit_disabled := loading s;
     deposit_label :=
       if loading s then "Processing Payment..." else "Proceed to Net Banking" |}.

(* ===================================================================== *)
(** ** Worlds the component can be in *)
(* ===================================================================== *)

(** The world after a run of events from mount. *)
Definition reached (evs : list Event) : World := steps mounted evs.

(** How the continuation of a fetch behaves. *)
Definition fetch_continuation (k : Settled (Response FundsData) -> Cmd) : Prop :=
  (forall res data w,
     succeeded res = Some data ->
     run (k res) w = write (with_loading false) (write (with_funds (Some data)) w))
  /\ (forall res err w,
        failure res = Some err ->
        run (k res) w
        = write (with_loading false)
            (emit (Logged "Error fetching funds:" err)
               (write (with_error ("Failed to fetch funds: " ++ message_of err)%string)
                  w))).

(** How the continuation of a deposit made in the closure [r] behaves. *)
Definition deposit_continuation
    (r : State) (k : Settled (Response DepositResponse) -> Cmd) : Prop :=
  (forall res responseData u w,
     succeeded res = Some responseData ->
     data_url responseData = Some u ->
     truthy u = true ->
     run (k res) w
     = write (with_loading false)
         (schedule {| callback := open_gateway u; delay := 1500 |}
            (write (with_success RedirectingNotice) w)))
  /\ (forall res responseData w,
        succeeded res = Some responseData ->
        truthy_opt (data_url responseData) = false ->
        run (k res) w
        = write (with_loading false)
            (schedule {| callback := refresh_after_deposit r; delay := 2000 |}
               (write (with_depositAmount "")
                  (write
                     (with_success
                        ("Successfully deposited ₹" ++ depositAmount r)%string)
                     w))))
  /\ (forall res err w,
        failure res = Some err ->
        run (k res) w
        = write (with_loading false)
            (emit (Logged "Error depositing funds:" err)
               (write
                  (with_error ("Failed to deposit funds: " ++ message_of err)%string)
                  w))).

(** The requests that wait are continuations of the two functions. *)
Inductive expected_pending : Pending -> Prop :=
| expected_fetch k :
    fetch_continuation k -> expected_pending (PendingFunds k)
| expected_deposit r k :
    deposit_ready r = true ->
    deposit_continuation r k ->
    expected_pending (PendingDeposit k).

(** The timers that wait are the two callbacks of [depositFunds]. *)
Inductive expected_timer : Timer -> Prop :=
| expected_open u :
    truthy u = true ->
    expected_timer {| callback := open_gateway u; delay := 1500 |}
| expected_refresh r :
    deposit_ready r = true ->
    expected_timer {| callback := refresh_after_deposit r; delay := 2000 |}.

(** A request of the component: one of the two endpoints, with the header
    of a non-empty token, and for a deposit an amount that passed the
    guard. *)
Definition authorized (req : Request) : Prop :=
  exists token,
    token <> ""
    /\ (req = funds_request token
        \/ exists amount,
             req = deposit_request token amount NB
             /\ amount <> ""
             /\ le_zero (parseFloat amount) = false).

Definition expected_effect (e : Effect) : Prop :=
  match e with
  | NetCall req => authorized req
  | Opened href features => href <> "" /\ features = "_blank"
  | Logged label _ =>
      label = "Error fetching funds:" \/ label = "Error depositing funds:"
  end.

(** The texts [error] can hold. *)
Definition error_text (s : string) : Prop :=
  s = ""
  \/ s = MissingCredential
  \/ s = InvalidAmount
  \/ (exists err, s = ("Failed to fetch funds: " ++ message_of err)%string)
  \/ (exists err, s = ("Failed to deposit funds: " ++ message_of err)%string).

(** The texts [success] can hold. *)
Definition success_text (s : string) : Prop :=
  s = ""
  \/ s = RedirectingNotice
  \/ s = GatewayOpenedNotice
  \/ (exists amount,
        s = ("Successfully deposited ₹" ++ amount)%string
        /\ amount <> ""
        /\ le_zero (parseFloat amount) = false).

(** What every step keeps. *)
Record consistent (w : World) : Prop := {
  pending_expected : Forall expected_pending (inflight w);
  timers_expected : Forall expected_timer (timers w);
  effects_expected : Forall expected_effect (effects w);
  loading_in_flight : loading (ui w) = true -> inflight w <> [];
  error_expected : error_text (error (ui w));
  success_expected : success_text (success (ui w))
}.

(** The token after a run of events: the last value typed. *)
Definition last_token (evs : list Event) : string :=
  fold_left
    (fun token ev => match ev with TokenInput v => v | _ => token end)
    evs "".

(* ===================================================================== *)
(** ** Basic facts *)
(* ===================================================================== *)

Arguments parseFloat : simpl never.
Arguments le_zero : simpl never.
Arguments in_2xx : simpl never.
Arguments String.append : simpl never.

Lemma truthy_false (s : string) : truthy s = false <-> s = "".
Proof. destruct s; simpl; split; congruence. Qed.

Lemma truthy_true (s : string) : truthy s = true <-> s <> "".
Proof. destruct s; simpl; split; congruence. Qed.

Lemma parseFloat_empty : parseFloat "" = NaN.
Proof. reflexivity. Qed.



Lemma deposit_ready_inv (s : State) :
  deposit_ready s = true ->
  truthy (authToken s) = true
  /\ truthy (depositAmount s) = true
  /\ le_zero (parseFloat (depositAmount s)) = false.
Proof.
  unfold deposit_ready. intros H.
  apply andb_prop in H as [H H3]. apply andb_prop in H as [H1 H2].
  apply negb_true_iff in H3. auto.
Qed.

Lemma succeeded_inv {A} (r : Settled (Response A)) (a : A) :
  succeeded r = Some a ->
  exists st, r = Fulfilled {| status := st; json := Fulfilled a |}
             /\ in_2xx st = true.
Proof.
  destruct r as [e | [st [e | v]]]; unfold succeeded, ok; simpl;
    try discriminate; destruct (in_2xx st) eqn:E; try discriminate.
  intros [= ->]. eauto.
Qed.

Lemma failure_inv {A} (r : Settled (Response A)) (err : Thrown) :
  failure r = Some err ->
  r = Rejected err
  \/ (exists st js, r = Fulfilled {| status := st; json := js |}
                    /\ in_2xx st = false
                    /\ err = ErrorObject ("HTTP error! status: " ++ show_N st)%string)
  \/ (exists st, r = Fulfilled {| status := st; json := Rejected err |}
                 /\ in_2xx st = true).
Proof.
  destruct r as [e | [st js]]; unfold failure, ok, http_error; simpl.
  - intros [= ->]. auto.
  - destruct (in_2xx st) eqn:E.
    + destruct js as [e | v]; [|discriminate].
      intros [= ->]. right. right. eauto.
    + intros [= <-]. right. left. eauto.
Qed.

(** An exchange either delivers a body or ends in an error, never both. *)
Lemma succeeded_or_failure {A} (r : Settled (Response A)) :
  (exists a, succeeded r = Some a /\ failure r = None)
  \/ (exists err, failure r = Some err /\ succeeded r = None).
Proof.
  destruct r as [e | [st [e | v]]]; unfold succeeded, failure, ok; simpl;
    try destruct (in_2xx st); eauto.
Qed.

(* ===================================================================== *)
(** ** Preconditions *)
(* ===================================================================== *)



(** With a token, [depositFunds] stops at the amount exactly when the amount
    is empty or [parseFloat] reads a number that is not positive; otherwise
    the request goes out. *)
Lemma deposit_amount_guard (w : World) :
  truthy (authToken (ui w)) = true ->
  if negb (truthy (depositAmount (ui w)))
     || le_zero (parseFloat (depositAmount (ui w)))
  then invoke depositFunds w = write (with_error InvalidAmount) w
  else issued_since w (invoke depositFunds w)
       = [NetCall (deposit_request (authToken (ui w)) (depositAmount (ui w))
                     (depositMode (ui w)))].
Proof.
  intros Htoken. unfold invoke, depositFunds. rewrite Htoken. simpl negb.
  cbv iota.
  destruct (negb (truthy (depositAmount (ui w)))
            || le_zero (parseFloat (depositAmount (ui w)))).
  - reflexivity.
  - unfold issued_since. simpl. rewrite drop_app_length. reflexivity.
Qed.




(* ===================================================================== *)
(** ** What the amount field can deliver *)
(* ===================================================================== *)

(** The count of digits read and the rest do not depend on the value
    carried in. *)
Lemma digits_shape (s : string) :
  forall acc acc' n,
    snd (fst (digits acc n s)) = snd (fst (digits acc' n s))
    /\ snd (digits acc n s) = snd (digits acc' n s).
Proof.
  induction s as [| c r IH]; intros acc acc' n; simpl.
  - auto.
  - destruct (digit_of c); simpl; auto.
Qed.

Lemma opens_number_chars (c : ascii) :
  opens_number c = true \/ Ascii.eqb c "-" = true ->
  is_ascii_space c = false
  /\ (forall b, is_space2 c b = false)
  /\ (forall b d, is_space3 c b d = false)
  /\ Ascii.eqb c "+" = false
  /\ Ascii.eqb c "I" = false.
Proof.
  destruct c as [[] [] [] [] [] [] [] []];
    (intros [H | H]; [try discriminate H | try discriminate H]);
    repeat split.
Qed.

Lemma trim_start_number (c : ascii) (r : string) :
  opens_number c = true \/ Ascii.eqb c "-" = true ->
  trim_start (String c r) = String c r.
Proof.
  intros H. destruct (opens_number_chars c H) as (H1 & H2 & H3 & _).
  simpl. rewrite H1.
  destruct r as [| b r2]; [reflexivity |]. rewrite H2.
  destruct r2 as [| d r3]; [reflexivity |]. rewrite H3. reflexivity.
Qed.

Lemma not_Infinity (c : ascii) (r : string) :
  Ascii.eqb c "I" = false -> String.prefix "Infinity" (String c r) = false.
Proof.
  intros H.
  change (String.prefix "Infinity" (String c r))
    with (if ascii_dec "I" c then String.prefix "nfinity" r else false).
  destruct (ascii_dec "I" c) as [<- | _]; [discriminate H | reflexivity].
Qed.

Lemma valid_unsigned_opens (s1 : string) :
  valid_unsigned s1 = true ->
  exists c r, s1 = String c r /\ opens_number c = true.
Proof.
  destruct s1 as [| c r]; [discriminate |].
  intros H. exists c, r. split; [reflexivity |].
  unfold opens_number. unfold valid_unsigned in H. simpl in H.
  destruct (digit_of c); [reflexivity |].
  unfold after_point in H. destruct (Ascii.eqb c "."); [reflexivity |].
  discriminate H.
Qed.

Lemma valid_unsigned_literal (neg : bool) (s1 : string) :
  valid_unsigned s1 = true -> unsigned_literal neg s1 <> NaN.
Proof.
  intros H.
  destruct (valid_unsigned_opens s1 H) as (c & r & -> & Hc).
  destruct (opens_number_chars c (or_introl Hc)) as (_ & _ & _ & _ & HI).
  unfold unsigned_literal.
  rewrite (not_Infinity c r HI).
  unfold valid_unsigned in H.
  destruct (digits 0 0 (String c r)) as [[ip ni] s2].
  destruct (after_point s2) as [s3 |].
  - destruct (digits_shape s3 0%N ip 0) as [Hn _].
    destruct (digits 0 0 s3) as [[v nf] r'].
    destruct (digits ip 0 s3) as [[mant nf'] s4]. simpl in Hn. subst nf'.
    apply andb_prop in H as [H _].
    destruct nf; [discriminate H |]. destruct ni; discriminate.
  - apply andb_prop in H as [H _].
    destruct ni; [discriminate H | discriminate].
Qed.

(** Every valid floating-point number is read as a number by
    [parseFloat]. *)
Lemma valid_number_parses (s : string) :
  valid_floating_point_number s = true -> parseFloat s <> NaN.
Proof.
  destruct s as [| c r]; [discriminate |].
  unfold valid_floating_point_number, parseFloat.
  destruct (Ascii.eqb c "-") eqn:Hminus.
  - intros H. rewrite trim_start_number by auto.
    destruct (opens_number_chars c (or_intror Hminus)) as (_ & _ & _ & Hplus & _).
    unfold sign. rewrite Hplus, Hminus. apply valid_unsigned_literal, H.
  - intros H.
    destruct (valid_unsigned_opens _ H) as (c' & r' & [= <- <-] & Hc).
    rewrite trim_start_number by auto.
    destruct (opens_number_chars c (or_introl Hc)) as (_ & _ & _ & Hplus & _).
    unfold sign. rewrite Hplus, Hminus. apply valid_unsigned_literal, H.
Qed.

(** On the values the amount field can deliver, the guard of
    [depositFunds] is the test "does not parse as a number greater than
    zero". *)
Lemma number_field_guard (s : string) :
  number_field_value s = true ->
  negb (truthy s) || le_zero (parseFloat s) = negb (parses_positive s).
Proof.
  unfold number_field_value, parses_positive. intros H.
  destruct s as [| c r]; [reflexivity |].
  change (valid_floating_point_number (String c r) = true) in H.
  apply valid_number_parses in H. simpl.
  destruct (parseFloat (String c r)) as [| neg | neg m e];
    [congruence | |]; unfold le_zero, gt_zero.
  - now destruct neg.
  - now rewrite negb_involutive.
Qed.

(** With a token, an amount that the field can deliver and that does not
    parse as a number greater than zero stops the deposit. *)
Lemma number_field_amount_guarded (w : World) :
  authToken (ui w) <> "" ->
  number_field_value (depositAmount (ui w)) = true ->
  parses_positive (depositAmount (ui w)) = false ->
  invoke depositFunds w = write (with_error InvalidAmount) w.
Proof.
  intros Htoken Hfield Hpos. apply truthy_true in Htoken.
  pose proof (deposit_amount_guard w Htoken) as H.
  rewrite (number_field_guard _ Hfield), Hpos in H. exact H.
Qed.

(* ===================================================================== *)
(** ** The effect on the token *)
(* ===================================================================== *)

(** C2, as amended.  Editing the token triggers a Balance Fetch exactly when
    the new value is non-empty and differs from the previous one, whether
    the previous one was empty or not; the fetch carries the new value.  In
    every other case nothing is issued.  Mounting issues nothing. *)
Theorem token_edit_fetches (w : World) (v : string) :
  issued_since w (step w (TokenInput v))
  = (if String.eqb (authToken (ui w)) v || negb (truthy v) then []
     else [NetCall (funds_request v)])
  /\ authToken (ui (step w (TokenInput v))) = v
  /\ effects mounted = [].
Proof.
  unfold step, after_render, issued_since. simpl.
  destruct (String.eqb (authToken (ui w)) v); simpl.
  - rewrite drop_all. auto.
  - unfold invoke, load_funds_effect. simpl.
    destruct (truthy v) eqn:Hv; simpl.
    + unfold fetchFunds. simpl. rewrite Hv. simpl.
      rewrite drop_app_length. auto.
    + rewrite drop_all. auto.
Qed.

(** C2, as stated, fails: a token edited from ["a"] to ["ab"], one non-empty
    value to another, triggers a fetch with the new value. *)
Lemma token_edit_counterexample :
  let w := step mounted (TokenInput "a") in
  authToken (ui w) = "a"
  /\ issued_since w (step w (TokenInput "ab")) = [NetCall (funds_request "ab")].
Proof.
  simpl. split; reflexivity.
Qed.

(* ===================================================================== *)
(** ** Balance Fetch *)
(* ===================================================================== *)

(** With a token, [fetchFunds] sets [loading], clears [error], sends the
    read and waits for it. *)
Lemma fetch_starts (r : State) (w : World) :
  truthy (authToken r) = true ->
  exists k,
    run (fetchFunds r) w
    = suspend (PendingFunds k)
        (emit (NetCall (funds_request (authToken r)))
           (write (with_error "") (write (with_loading true) w)))
    /\ (forall res data w2,
          succeeded res = Some data ->
          run (k res) w2
          = write (with_loading false) (write (with_funds (Some data)) w2))
    /\ (forall res err w2,
          failure res = Some err ->
          run (k res) w2
          = write (with_loading false)
              (emit (Logged "Error fetching funds:" err)
                 (write (with_error ("Failed to fetch funds: " ++ message_of err)%string)
                    w2))).
Proof.
  intros Htoken. unfold fetchFunds. rewrite Htoken. simpl negb. cbv iota.
  eexists. split; [reflexivity |]. split.
  - intros res data w2 H. apply succeeded_inv in H as (st & -> & Hst).
    simpl. unfold ok. simpl. rewrite Hst. reflexivity.
  - intros res err w2 H.
    apply failure_inv in H as [-> | [(st & js & -> & Hst & ->) | (st & -> & Hst)]];
      simpl; unfold ok; simpl; try rewrite Hst; reflexivity.
Qed.

(** C4. After a successful Fetch the snapshot is the parsed body, whatever
    was held before: each field is the body's field, so a field the
    response lacks is absent afterwards. *)
Theorem fetch_replaces_snapshot
    (w : World) (res : Settled (Response FundsData)) (data : FundsData) :
  authToken (ui w) <> "" ->
  succeeded res = Some data ->
  exists k,
    inflight (invoke fetchFunds w) = inflight w ++ [PendingFunds k]
    /\ forall w2,
         funds (ui (run (k res) w2)) = Some data
         /\ type <$> funds (ui (run (k res) w2)) = Some (type data)
         /\ email <$> funds (ui (run (k res) w2)) = Some (email data)
         /\ balance <$> funds (ui (run (k res) w2)) = Some (balance data).
Proof.
  intros Htoken Hres. apply truthy_true in Htoken.
  destruct (fetch_starts (ui w) w Htoken) as (k & Hrun & Hok & _).
  exists k. unfold invoke. rewrite Hrun. split; [reflexivity |].
  intros w2. rewrite (Hok res data w2 Hres). simpl. auto.
Qed.

Lemma fetch_replaces_snapshot_witness :
  exists k,
    inflight (invoke fetchFunds signed_in) = inflight signed_in ++ [PendingFunds k]
    /\ forall w2,
         let res := Fulfilled {| status := 200;
                                 json := Fulfilled {| type := None;
                                                      email := Some "a@b.c";
                                                      balance := None |} |} in
         funds (ui (run (k res) w2))
         = Some {| type := None; email := Some "a@b.c"; balance := None |}
         /\ type <$> funds (ui (run (k res) w2)) = Some None
         /\ email <$> funds (ui (run (k res) w2)) = Some (Some "a@b.c")
         /\ balance <$> funds (ui (run (k res) w2)) = Some None.
Proof.
  apply (fetch_replaces_snapshot signed_in
           (Fulfilled {| status := 200;
                         json := Fulfilled {| type := None;
                                              email := Some "a@b.c";
                                              balance := None |} |})
           {| type := None; email := Some "a@b.c"; balance := None |}).
  - discriminate.
  - reflexivity.
Defined.



(** C10. Fetch never writes [success].  Called from any closure [r] in any
    world: the abort on an empty token leaves [success] as it was; when the
    request goes out, [success] is as it was at that moment, and when the
    response settles, in whatever way, [success] is as it was just before,
    next to the error message of a failing fetch.  Fetch starts no timer. *)
Theorem fetch_leaves_success (r : State) (w : World) :
  success (ui (run (fetchFunds r) w)) = success (ui w)
  /\ timers (run (fetchFunds r) w) = timers w
  /\ (authToken r = "" /\ inflight (run (fetchFunds r) w) = inflight w
      \/ exists k,
           inflight (run (fetchFunds r) w) = inflight w ++ [PendingFunds k]
           /\ forall res w2,
                success (ui (run (k res) w2)) = success (ui w2)
                /\ timers (run (k res) w2) = timers w2
                /\ inflight (run (k res) w2) = inflight w2
                /\ error (ui (run (k res) w2))
                   = match failure res with
                     | Some err => ("Failed to fetch funds: " ++ message_of err)%string
                     | None => error (ui w2)
                     end).
Proof.
  destruct (truthy (authToken r)) eqn:Htoken.
  - destruct (fetch_starts r w Htoken) as (k & Hrun & Hok & Hfail).
    rewrite Hrun. repeat split. right. exists k. split; [reflexivity |].
    intros res w2.
    destruct (succeeded_or_failure res) as [(a & Hs & Hf) | (err & Hf & Hs)];
      rewrite Hf.
    + rewrite (Hok res a w2 Hs). repeat split.
    + rewrite (Hfail res err w2 Hf). repeat split.
  - unfold fetchFunds. rewrite Htoken. simpl. repeat split.
    left. apply truthy_false in Htoken. auto.
Qed.

(** A message left by a deposit outlives a later failing fetch: after the
    gateway was opened, a refresh that fails shows both boxes. *)
Example success_survives_failing_fetch :
  let w :=
    steps signed_in
      [AmountInput "100";
       DepositClick;
       DepositSettles 0 gateway_response;
       TimerFires 0;
       RefreshClick;
       FundsSettles 0 (Rejected (ErrorObject "Failed to fetch"))] in
  success (ui w) = GatewayOpenedNotice
  /\ error (ui w) = "Failed to fetch funds: Failed to fetch"
  /\ funds (ui w) = Some savings.
Proof. repeat split. Qed.

(* ===================================================================== *)
(** ** Deposit *)
(* ===================================================================== *)

(** With both preconditions, [depositFunds] sets [loading], clears both
    messages, sends the write and waits for it; the three ways it goes
    on. *)
Lemma deposit_starts (r : State) (w : World) :
  deposit_ready r = true ->
  exists k,
    run (depositFunds r) w
    = suspend (PendingDeposit k)
        (emit (NetCall (deposit_request (authToken r) (depositAmount r)
                          (depositMode r)))
           (write (with_success "")
              (write (with_error "") (write (with_loading true) w))))
    /\ (forall res responseData u w2,
          succeeded res = Some responseData ->
          data_url responseData = Some u ->
          truthy u = true ->
          run (k res) w2
          = write (with_loading false)
              (schedule {| callback := open_gateway u; delay := 1500 |}
                 (write (with_success RedirectingNotice) w2)))
    /\ (forall res responseData w2,
          succeeded res = Some responseData ->
          truthy_opt (data_url responseData) = false ->
          run (k res) w2
          = write (with_loading false)
              (schedule {| callback := refresh_after_deposit r; delay := 2000 |}
                 (write (with_depositAmount "")
                    (write
                       (with_success
                          ("Successfully deposited ₹" ++ depositAmount r)%string)
                       w2))))
    /\ (forall res err w2,
          failure res = Some err ->
          run (k res) w2
          = write (with_loading false)
              (emit (Logged "Error depositing funds:" err)
                 (write
                    (with_error ("Failed to deposit funds: " ++ message_of err)%string)
                    w2))).
Proof.
  intros Hready.
  destruct (deposit_ready_inv r Hready) as (Htoken & Hamount & Hpositive).
  unfold depositFunds. rewrite Htoken, Hamount, Hpositive.
  simpl negb. simpl orb. cbv iota.
  eexists. split; [reflexivity |]. split; [| split].
  - intros res responseData u w2 H Hurl Hu.
    apply succeeded_inv in H as (st & -> & Hst).
    simpl. unfold ok. simpl. rewrite Hst. simpl.
    destruct (depositMode r). rewrite Hurl. simpl. rewrite Hu. reflexivity.
  - intros res responseData w2 H Hurl.
    apply succeeded_inv in H as (st & -> & Hst).
    simpl. unfold ok. simpl. rewrite Hst. simpl.
    rewrite Hurl, andb_false_r. reflexivity.
  - intros res err w2 H.
    apply failure_inv in H as [-> | [(st & js & -> & Hst & ->) | (st & -> & Hst)]];
      simpl; unfold ok; simpl; try rewrite Hst; reflexivity.
Qed.





(** C9. A Deposit that passed its preconditions and then fails, by a
    non-success status or by a failure of the transport or of the body,
    writes its error message and clears [loading]; neither its start nor its
    failure touches the amount input. *)
Theorem deposit_failure_keeps_amount
    (w : World) (res : Settled (Response DepositResponse)) (err : Thrown) :
  deposit_ready (ui w) = true ->
  failure res = Some err ->
  exists k,
    inflight (invoke depositFunds w) = inflight w ++ [PendingDeposit k]
    /\ depositAmount (ui (invoke depositFunds w)) = depositAmount (ui w)
    /\ forall w2,
         error (ui (run (k res) w2))
         = ("Failed to deposit funds: " ++ message_of err)%string
         /\ depositAmount (ui (run (k res) w2)) = depositAmount (ui w2)
         /\ loading (ui (run (k res) w2)) = false
         /\ timers (run (k res) w2) = timers w2.
Proof.
  intros Hready Hres.
  destruct (deposit_starts (ui w) w Hready) as (k & Hrun & _ & _ & Hfail).
  exists k. unfold invoke. rewrite Hrun. repeat split;
    rewrite (Hfail res err w2 Hres); reflexivity.
Qed.

Lemma deposit_failure_keeps_amount_witness :
  exists k,
    inflight (invoke depositFunds (amount_typed "50"))
    = inflight (amount_typed "50") ++ [PendingDeposit k]
    /\ depositAmount (ui (invoke depositFunds (amount_typed "50"))) = "50"
    /\ forall w2,
         let res := Rejected (ErrorObject "Failed to fetch") in
         error (ui (run (k res) w2))
         = ("Failed to deposit funds: "
            ++ message_of (ErrorObject "Failed to fetch"))%string
         /\ depositAmount (ui (run (k res) w2)) = depositAmount (ui w2)
         /\ loading (ui (run (k res) w2)) = false
         /\ timers (run (k res) w2) = timers w2.
Proof.
  apply (deposit_failure_keeps_amount (amount_typed "50")
           (Rejected (ErrorObject "Failed to fetch"))
           (ErrorObject "Failed to fetch")).
  - reflexivity.
  - reflexivity.
Defined.

(* ===================================================================== *)
(** ** The two messages *)
(* ===================================================================== *)

(** C3, as amended.  A Deposit whose preconditions pass clears [error] and
    [success] when it starts; a Fetch whose precondition passes clears
    [error] and leaves [success] as it is.  When either settles, a failure
    writes [error] and not [success]; a successful Deposit writes [success]
    and not [error]; a successful Fetch writes neither. *)
Theorem operation_messages (w : World) :
  authToken (ui w) <> "" ->
  (exists k,
     inflight (invoke fetchFunds w) = inflight w ++ [PendingFunds k]
     /\ error (ui (invoke fetchFunds w)) = ""
     /\ success (ui (invoke fetchFunds w)) = success (ui w)
     /\ forall res w2,
          success (ui (run (k res) w2)) = success (ui w2)
          /\ error (ui (run (k res) w2))
             = match failure res with
               | Some err => ("Failed to fetch funds: " ++ message_of err)%string
               | None => error (ui w2)
               end)
  /\ (deposit_ready (ui w) = true ->
      exists k,
        inflight (invoke depositFunds w) = inflight w ++ [PendingDeposit k]
        /\ error (ui (invoke depositFunds w)) = ""
        /\ success (ui (invoke depositFunds w)) = ""
        /\ forall res w2,
             match failure res with
             | Some err =>
                 error (ui (run (k res) w2))
                 = ("Failed to deposit funds: " ++ message_of err)%string
                 /\ success (ui (run (k res) w2)) = success (ui w2)
             | None =>
                 error (ui (run (k res) w2)) = error (ui w2)
                 /\ (success (ui (run (k res) w2)) = RedirectingNotice
                     \/ success (ui (run (k res) w2))
                        = ("Successfully deposited ₹" ++ depositAmount (ui w))%string)
             end).
Proof.
  intros Htoken. apply truthy_true in Htoken. split; [| intros Hready].
  - destruct (fetch_starts (ui w) w Htoken) as (k & Hrun & Hok & Hfail).
    exists k. unfold invoke. rewrite Hrun. repeat split;
      destruct (succeeded_or_failure res) as [(a & Hs & Hf) | (err & Hf & Hs)];
      rewrite ?Hf;
      first [rewrite (Hok res a w2 Hs) | rewrite (Hfail res err w2 Hf)];
      reflexivity.
  - destruct (deposit_starts (ui w) w Hready)
      as (k & Hrun & Hredirect & Hdirect & Hfail).
    exists k. unfold invoke. rewrite Hrun. repeat split.
    intros res w2.
    destruct (succeeded_or_failure res) as [(a & Hs & Hf) | (err & Hf & Hs)];
      rewrite Hf.
    + destruct (data_url a) as [u |] eqn:Hurl; [destruct (truthy u) eqn:Hu |].
      * rewrite (Hredirect res a u w2 Hs Hurl Hu). split; [reflexivity | now left].
      * rewrite (Hdirect res a w2 Hs); [| now rewrite Hurl].
        split; [reflexivity | now right].
      * rewrite (Hdirect res a w2 Hs); [| now rewrite Hurl].
        split; [reflexivity | now right].
    + rewrite (Hfail res err w2 Hf). split; reflexivity.
Qed.

Lemma operation_messages_witness :
  (exists k,
     inflight (invoke fetchFunds (amount_typed "50"))
     = inflight (amount_typed "50") ++ [PendingFunds k]
     /\ error (ui (invoke fetchFunds (amount_typed "50"))) = ""
     /\ success (ui (invoke fetchFunds (amount_typed "50")))
        = success (ui (amount_typed "50"))
     /\ forall res w2,
          success (ui (run (k res) w2)) = success (ui w2)
          /\ error (ui (run (k res) w2))
             = match failure res with
               | Some err => ("Failed to fetch funds: " ++ message_of err)%string
               | None => error (ui w2)
               end)
  /\ (exists k,
        inflight (invoke depositFunds (amount_typed "50"))
        = inflight (amount_typed "50") ++ [PendingDeposit k]
        /\ error (ui (invoke depositFunds (amount_typed "50"))) = ""
        /\ success (ui (invoke depositFunds (amount_typed "50"))) = ""
        /\ forall res w2,
             match failure res with
             | Some err =>
                 error (ui (run (k res) w2))
                 = ("Failed to deposit funds: " ++ message_of err)%string
                 /\ success (ui (run (k res) w2)) = success (ui w2)
             | None =>
                 error (ui (run (k res) w2)) = error (ui w2)
                 /\ (success (ui (run (k res) w2)) = RedirectingNotice
                     \/ success (ui (run (k res) w2)) = "Successfully deposited ₹50")
             end).
Proof.
  destruct (operation_messages (amount_typed "50")) as [Hfetch Hdeposit].
  - discriminate.
  - split; [exact Hfetch | apply Hdeposit; reflexivity].
Defined.

(** C3, as stated, fails for Fetch: the gateway-opened notice of an earlier
    deposit is still in [success] after a Fetch has started, and after it
    has delivered its snapshot. *)
Lemma fetch_start_counterexample :
  let w := steps (amount_typed "100")
             [DepositClick; DepositSettles 0 gateway_response; TimerFires 0] in
  authToken (ui w) = "abc"
  /\ loading (ui w) = false
  /\ success (ui w) = GatewayOpenedNotice
  /\ issued_since w (step w RefreshClick) = [NetCall (funds_request "abc")]
  /\ success (ui (step w RefreshClick)) = GatewayOpenedNotice
  /\ success (ui (steps w [RefreshClick; FundsSettles 0 savings_response]))
     = GatewayOpenedNotice
  /\ GatewayOpenedNotice <> "".
Proof.
  intros w. repeat split; try (vm_compute; reflexivity). discriminate.
Qed.

(* ===================================================================== *)
(** ** The scenarios of the specification *)
(* ===================================================================== *)

(** Scenario A: no token, Fetch. *)
Example scenario_A :
  let w := invoke fetchFunds mounted in
  error (ui w) = "Please enter your Bearer token first"
  /\ funds (ui w) = funds (ui mounted)
  /\ effects w = [].
Proof. repeat split. Qed.

(** Scenario B: token ["abc"], amount ["0"], Deposit. *)
Example scenario_B :
  let w := amount_typed "0" in
  error (ui (step w DepositClick)) = "Please enter a valid amount"
  /\ issued_since w (step w DepositClick) = [].
Proof. intros w. split; vm_compute; reflexivity. Qed.

(** Scenario C: the snapshot has a type and a balance and no email. *)
Example scenario_C :
  funds (ui signed_in) = Some savings
  /\ (funds (ui signed_in) ≫= email) = None
  /\ (funds (ui signed_in) ≫= type) = Some "savings"
  /\ loading (ui signed_in) = false.
Proof. repeat split. Qed.

(** Scenario D: amount ["100"], the response has a payment URL. *)
Example scenario_D :
  let w1 := steps (amount_typed "100") [DepositClick; DepositSettles 0 gateway_response] in
  let w2 := step w1 (TimerFires 0) in
  success (ui w1) = "Redirecting to payment gateway..."
  /\ depositAmount (ui w1) = "100"
  /\ (delay <$> timers w1) = [1500%N]
  /\ issued_since w1 w2 = [Opened "https://pay.example/x" "_blank"]
  /\ success (ui w2)
     = "Payment gateway opened in new tab. Complete your payment there."
  /\ depositAmount (ui w2) = ""
  /\ timers w2 = [].
Proof. intros w1 w2. repeat split; vm_compute; reflexivity. Qed.

(** Scenario E: amount ["50"], the response has no payment URL. *)
Example scenario_E :
  let w1 := steps (amount_typed "50") [DepositClick; DepositSettles 0 direct_response] in
  let w2 := step w1 (TimerFires 0) in
  success (ui w1) = "Successfully deposited ₹50"
  /\ depositAmount (ui w1) = ""
  /\ (delay <$> timers w1) = [2000%N]
  /\ issued_since w1 w2 = [NetCall (funds_request "abc")]
  /\ success (ui w2) = ""
  /\ loading (ui w2) = true.
Proof. intros w1 w2. repeat split; vm_compute; reflexivity. Qed.

(* ===================================================================== *)
(** ** What every reachable world keeps *)
(* ===================================================================== *)

Lemma steps_snoc (w : World) (evs : list Event) (ev : Event) :
  steps w (evs ++ [ev]) = step (steps w evs) ev.
Proof. unfold steps. rewrite fold_left_app. reflexivity. Qed.

Lemma steps_app (w : World) (evs evs' : list Event) :
  steps w (evs ++ evs') = steps (steps w evs) evs'.
Proof. unfold steps. apply fold_left_app. Qed.

Lemma funds_request_authorized (token : string) :
  truthy token = true -> authorized (funds_request token).
Proof.
  intros H. exists token. split; [now apply truthy_true | now left].
Qed.

Lemma deposit_request_authorized (r : State) :
  deposit_ready r = true ->
  authorized (deposit_request (authToken r) (depositAmount r) (depositMode r)).
Proof.
  intros H. destruct (deposit_ready_inv r H) as (Ht & Ha & Hp).
  exists (authToken r). split; [now apply truthy_true |].
  right. exists (depositAmount r). destruct (depositMode r).
  split; [reflexivity | split; [now apply truthy_true | exact Hp]].
Qed.

(** A write to a cell other than [loading], [error] and [success] keeps a
    consistent world consistent. *)
Lemma consistent_write (f : State -> State) (w : World) :
  (forall s, loading (f s) = loading s) ->
  (forall s, error (f s) = error s) ->
  (forall s, success (f s) = success s) ->
  consistent w -> consistent (write f w).
Proof.
  intros Hl He Hs [].
  constructor; simpl; rewrite ?Hl, ?He, ?Hs; assumption.
Qed.

Lemma consistent_abort (msg : string) (w : World) :
  error_text msg -> consistent w -> consistent (write (with_error msg) w).
Proof.
  intros Hmsg []. constructor; simpl; assumption.
Qed.

Lemma consistent_fetch_start (r : State) (w : World) :
  truthy (authToken r) = true ->
  consistent w -> consistent (run (fetchFunds r) w).
Proof.
  intros Htoken [].
  destruct (fetch_starts r w Htoken) as (k & -> & Hok & Hfail).
  constructor; simpl.
  - apply Forall_app. split; [assumption |].
    apply Forall_singleton, expected_fetch. split; assumption.
  - assumption.
  - apply Forall_app. split; [assumption |].
    apply Forall_singleton. now apply funds_request_authorized.
  - intros _ H. now apply app_eq_nil in H as [_ H].
  - now left.
  - assumption.
Qed.

Lemma consistent_fetch (r : State) (w : World) :
  consistent w -> consistent (run (fetchFunds r) w).
Proof.
  intros H. destruct (truthy (authToken r)) eqn:Htoken.
  - now apply consistent_fetch_start.
  - unfold fetchFunds. rewrite Htoken. simpl.
    apply consistent_abort; [right; now left | assumption].
Qed.

Lemma consistent_deposit (r : State) (w : World) :
  consistent w -> consistent (run (depositFunds r) w).
Proof.
  intros H. destruct (deposit_ready r) eqn:Hready.
  - destruct (deposit_starts r w Hready) as (k & -> & Hk).
    destruct H. constructor; simpl.
    + apply Forall_app. split; [assumption |].
      apply Forall_singleton. now apply (expected_deposit r).
    + assumption.
    + apply Forall_app. split; [assumption |].
      apply Forall_singleton. now apply deposit_request_authorized.
    + intros _ H. now apply app_eq_nil in H as [_ H].
    + now left.
    + now left.
  - unfold deposit_ready in Hready. unfold depositFunds.
    destruct (truthy (authToken r)); simpl.
    + destruct (truthy (depositAmount r)); simpl in *.
      * apply negb_false_iff in Hready. rewrite Hready. simpl.
        apply consistent_abort; [right; right; now left | assumption].
      * apply consistent_abort; [right; right; now left | assumption].
    + apply consistent_abort; [right; now left | assumption].
Qed.

Lemma consistent_drop_inflight (i : nat) (w : World) :
  consistent w ->
  Forall expected_pending (inflight (drop_inflight i w))
  /\ Forall expected_timer (timers (drop_inflight i w))
  /\ Forall expected_effect (effects (drop_inflight i w))
  /\ error_text (error (ui (drop_inflight i w)))
  /\ success_text (success (ui (drop_inflight i w))).
Proof.
  intros []. simpl.
  split; [now apply Forall_delete |].
  split; [assumption |]. split; [assumption |]. split; assumption.
Qed.

(** The settlement of a fetch that waits. *)
Lemma consistent_fetch_settles
    (k : Settled (Response FundsData) -> Cmd)
    (res : Settled (Response FundsData)) (i : nat) (w : World) :
  fetch_continuation k ->
  consistent w -> consistent (run (k res) (drop_inflight i w)).
Proof.
  intros [Hok Hfail] H.
  destruct (consistent_drop_inflight i w H)
    as (Hp & Ht & He & Herr & Hsucc).
  destruct (succeeded_or_failure res) as [(a & Hs & _) | (err & Hf & _)].
  - rewrite (Hok res a _ Hs). constructor; simpl; try assumption.
    discriminate.
  - rewrite (Hfail res err _ Hf). constructor; simpl; try assumption.
    + apply Forall_app. split; [assumption |].
      apply Forall_singleton. now left.
    + discriminate.
    + right. right. right. left. now exists err.
Qed.

(** The settlement of a deposit that waits. *)
Lemma consistent_deposit_settles
    (r : State) (k : Settled (Response DepositResponse) -> Cmd)
    (res : Settled (Response DepositResponse)) (i : nat) (w : World) :
  deposit_ready r = true ->
  deposit_continuation r k ->
  consistent w -> consistent (run (k res) (drop_inflight i w)).
Proof.
  intros Hready (Hredirect & Hdirect & Hfail) H.
  destruct (consistent_drop_inflight i w H)
    as (Hp & Ht & He & Herr & Hsucc).
  destruct (succeeded_or_failure res) as [(a & Hs & _) | (err & Hf & _)].
  - destruct (data_url a) as [u |] eqn:Hurl; [destruct (truthy u) eqn:Hu |].
    + rewrite (Hredirect res a u _ Hs Hurl Hu).
      constructor; simpl; try assumption.
      * apply Forall_app. split; [assumption |].
        apply Forall_singleton, expected_open, Hu.
      * discriminate.
      * right. now left.
    + rewrite (Hdirect res a _ Hs) by now rewrite Hurl.
      destruct (deposit_ready_inv r Hready) as (_ & Ha & Hpos).
      constructor; simpl; try assumption.
      * apply Forall_app. split; [assumption |].
        apply Forall_singleton, expected_refresh, Hready.
      * discriminate.
      * right. right. right. exists (depositAmount r).
        split; [reflexivity | split; [now apply truthy_true | exact Hpos]].
    + rewrite (Hdirect res a _ Hs) by now rewrite Hurl.
      destruct (deposit_ready_inv r Hready) as (_ & Ha & Hpos).
      constructor; simpl; try assumption.
      * apply Forall_app. split; [assumption |].
        apply Forall_singleton, expected_refresh, Hready.
      * discriminate.
      * right. right. right. exists (depositAmount r).
        split; [reflexivity | split; [now apply truthy_true | exact Hpos]].
  - rewrite (Hfail res err _ Hf). constructor; simpl; try assumption.
    + apply Forall_app. split; [assumption |].
      apply Forall_singleton. now right.
    + discriminate.
    + right. right. right. right. now exists err.
Qed.

(** A timer that fires. *)
Lemma consistent_timer_fires (t : Timer) (i : nat) (w : World) :
  expected_timer t ->
  consistent w -> consistent (run (callback t) (drop_timer i w)).
Proof.
  intros Ht H. destruct Ht as [u Hu | r Hready].
  - destruct H. constructor; simpl; try assumption.
    + now apply Forall_delete.
    + apply Forall_app. split; [assumption |].
      apply Forall_singleton. split; [now apply truthy_true | reflexivity].
    + right. right. now left.
  - destruct (deposit_ready_inv r Hready) as (Htoken & _).
    assert (Hw : consistent (drop_timer i w)).
    { destruct H. constructor; simpl; try assumption.
      now apply Forall_delete. }
    apply (consistent_fetch_start r _ Htoken) in Hw.
    unfold refresh_after_deposit. simpl.
    destruct Hw. constructor; simpl; try assumption. now left.
Qed.

Lemma consistent_mounted : consistent mounted.
Proof.
  constructor.
  - apply Forall_nil_2.
  - apply Forall_nil_2.
  - apply Forall_nil_2.
  - discriminate.
  - now left.
  - now left.
Qed.

(** Every event keeps a consistent world consistent. *)
Lemma consistent_step (w : World) (ev : Event) :
  consistent w -> consistent (step w ev).
Proof.
  intros H. destruct ev as [v | v | | | i res | i res | i]; simpl.
  - assert (Hw : consistent (write (with_authToken v) w))
      by (apply consistent_write; auto).
    destruct (String.eqb (authToken (ui w)) v); [exact Hw |].
    unfold invoke, load_funds_effect. simpl.
    destruct (truthy v) eqn:Hv; [| exact Hw].
    simpl. now apply consistent_fetch_start.
  - apply consistent_write; auto.
  - destruct (loading (ui w)); [exact H | now apply consistent_fetch].
  - destruct (loading (ui w)); [exact H | now apply consistent_deposit].
  - destruct (inflight w !! i) as [[k | k] |] eqn:Hi; try exact H.
    apply consistent_fetch_settles; [| exact H].
    pose proof (pending_expected w H) as Hp.
    rewrite Forall_lookup in Hp. specialize (Hp i _ Hi).
    now inversion Hp.
  - destruct (inflight w !! i) as [[k | k] |] eqn:Hi; try exact H.
    pose proof (pending_expected w H) as Hp.
    rewrite Forall_lookup in Hp. specialize (Hp i _ Hi).
    inversion Hp as [| r k' Hready Hk]; subst.
    now apply (consistent_deposit_settles r).
  - destruct (timers w !! i) as [t |] eqn:Hi; [| exact H].
    apply consistent_timer_fires; [| exact H].
    pose proof (timers_expected w H) as Ht.
    rewrite Forall_lookup in Ht. exact (Ht i _ Hi).
Qed.

Lemma consistent_steps (evs : list Event) (w : World) :
  consistent w -> consistent (steps w evs).
Proof.
  revert w. induction evs as [| ev evs IH]; intros w H; simpl.
  - exact H.
  - apply IH, consistent_step, H.
Qed.

Lemma consistent_reached (evs : list Event) : consistent (reached evs).
Proof. apply consistent_steps, consistent_mounted. Qed.

(* ===================================================================== *)
(** ** Properties of every reachable world *)
(* ===================================================================== *)

(** X1. Every request the component ever issues goes to one of its two
    endpoints with the header of a non-empty token: a GET of the funds
    without a body, or a POST of a deposit whose amount is not [<= 0] and
    whose mode is NB. *)
Theorem requests_authorized (evs : list Event) (req : Request) :
  In (NetCall req) (effects (reached evs)) ->
  exists token,
    token <> ""
    /\ headers req
       = [("Content-Type", "application/json");
          ("Authorization", ("Bearer " ++ token)%string)]
    /\ (method req = GET
        /\ target req = "http://13.202.238.76:3000/api/v1/funds"
        /\ body req = None
        \/ method req = POST
           /\ target req = "http://13.202.238.76:3000/api/v1/funds/deposit"
           /\ exists amount,
                amount <> ""
                /\ body req = Some {| amount := parseFloat amount; mode := NB |}
                /\ le_zero (parseFloat amount) = false).
Proof.
  intros Hin.
  pose proof (effects_expected _ (consistent_reached evs)) as H.
  rewrite Forall_forall in H. apply list_elem_of_In in Hin.
  specialize (H _ Hin). simpl in H.
  destruct H as (token & Htoken & [-> | (amount & -> & Ha & Hp)]);
    exists token; (split; [exact Htoken |]); (split; [reflexivity |]).
  - left. repeat split.
  - right. split; [reflexivity |]. split; [reflexivity |].
    exists amount. auto.
Qed.

Lemma requests_authorized_witness :
  exists token,
    token <> ""
    /\ headers (deposit_request "abc" "50" NB)
       = [("Content-Type", "application/json");
          ("Authorization", ("Bearer " ++ token)%string)]
    /\ (method (deposit_request "abc" "50" NB) = GET
        /\ target (deposit_request "abc" "50" NB)
           = "http://13.202.238.76:3000/api/v1/funds"
        /\ body (deposit_request "abc" "50" NB) = None
        \/ method (deposit_request "abc" "50" NB) = POST
           /\ target (deposit_request "abc" "50" NB)
              = "http://13.202.238.76:3000/api/v1/funds/deposit"
           /\ exists amount,
                amount <> ""
                /\ body (deposit_request "abc" "50" NB)
                   = Some {| amount := parseFloat amount; mode := NB |}
                /\ le_zero (parseFloat amount) = false).
Proof.
  apply (requests_authorized
           [TokenInput "abc"; FundsSettles 0 savings_response;
            AmountInput "50"; DepositClick]).
  vm_compute. right. left. reflexivity.
Defined.

(** X2. Every window the component ever opens has a non-empty address and
    the features ["_blank"]. *)
Theorem windows_blank (evs : list Event) (href features : string) :
  In (Opened href features) (effects (reached evs)) ->
  href <> "" /\ features = "_blank".
Proof.
  intros Hin.
  pose proof (effects_expected _ (consistent_reached evs)) as H.
  rewrite Forall_forall in H. apply list_elem_of_In in Hin.
  exact (H _ Hin).
Qed.

Lemma windows_blank_witness :
  "https://pay.example/x" <> "" /\ "_blank" = "_blank".
Proof.
  apply (windows_blank
           [TokenInput "abc"; FundsSettles 0 savings_response;
            AmountInput "100"; DepositClick;
            DepositSettles 0 gateway_response; TimerFires 0]).
  vm_compute. right. right. left. reflexivity.
Defined.

(** X3. Whenever [loading] is set, a request is in flight. *)
Theorem loading_has_request (evs : list Event) :
  loading (ui (reached evs)) = true -> inflight (reached evs) <> [].
Proof.
  apply loading_in_flight, consistent_reached.
Qed.

Lemma loading_has_request_witness :
  inflight (reached [TokenInput "abc"]) <> [].
Proof.
  apply (loading_has_request [TokenInput "abc"]). reflexivity.
Defined.

(** X4. The texts [error] and [success] can hold: [error] is empty, one of
    the two precondition messages, or one of the two failure prefixes with
    the detail of an error; [success] is empty, one of the two gateway
    notices, or the confirmation of an amount that passed the guard. *)
Theorem messages_known (evs : list Event) :
  error_text (error (ui (reached evs)))
  /\ success_text (success (ui (reached evs))).
Proof.
  split;
    [apply error_expected | apply success_expected]; apply consistent_reached.
Qed.

(* ===================================================================== *)
(** ** Who writes which cell *)
(* ===================================================================== *)

(** The start of a fetch or of a deposit writes none of the token, the
    snapshot and the amount. *)
Lemma fetch_start_cells (r : State) (w : World) :
  authToken (ui (run (fetchFunds r) w)) = authToken (ui w)
  /\ funds (ui (run (fetchFunds r) w)) = funds (ui w)
  /\ depositAmount (ui (run (fetchFunds r) w)) = depositAmount (ui w).
Proof.
  destruct (truthy (authToken r)) eqn:Htoken.
  - destruct (fetch_starts r w Htoken) as (k & -> & _). repeat split.
  - unfold fetchFunds. rewrite Htoken. repeat split.
Qed.

Lemma deposit_start_cells (r : State) (w : World) :
  authToken (ui (run (depositFunds r) w)) = authToken (ui w)
  /\ funds (ui (run (depositFunds r) w)) = funds (ui w)
  /\ depositAmount (ui (run (depositFunds r) w)) = depositAmount (ui w).
Proof.
  destruct (deposit_ready r) eqn:Hready.
  - destruct (deposit_starts r w Hready) as (k & -> & _). repeat split.
  - unfold depositFunds. unfold deposit_ready in Hready.
    destruct (truthy (authToken r)); simpl; [| repeat split].
    destruct (negb (truthy (depositAmount r))
              || le_zero (parseFloat (depositAmount r))) eqn:Hguard.
    + repeat split.
    + apply orb_false_elim in Hguard as [H1 H2].
      apply negb_false_iff in H1. rewrite H1, H2 in Hready. discriminate.
Qed.

(** What one event does to the token, the snapshot and the amount, in a
    consistent world. *)
Lemma step_cells (w : World) (ev : Event) :
  consistent w ->
  authToken (ui (step w ev))
  = match ev with TokenInput v => v | _ => authToken (ui w) end
  /\ (funds (ui (step w ev)) = funds (ui w)
      \/ exists i k res data,
           ev = FundsSettles i res
           /\ inflight w !! i = Some (PendingFunds k)
           /\ succeeded res = Some data
           /\ funds (ui (step w ev)) = Some data)
  /\ (depositAmount (ui (step w ev))
      = match ev with AmountInput v => v | _ => depositAmount (ui w) end
      \/ depositAmount (ui (step w ev)) = ""
         /\ match ev with
            | DepositSettles _ _ | TimerFires _ => True
            | _ => False
            end).
Proof.
  intros H. destruct ev as [v | v | | | i res | i res | i]; simpl.
  - unfold after_render. simpl.
    destruct (String.eqb (authToken (ui w)) v); [auto |].
    unfold invoke, load_funds_effect. simpl.
    destruct (truthy v); [| auto]. simpl.
    destruct (fetch_start_cells (with_authToken v (ui w))
                (write (with_authToken v) w)) as (-> & -> & ->). auto.
  - auto.
  - destruct (loading (ui w)); [auto |]. unfold invoke.
    destruct (fetch_start_cells (ui w) w) as (-> & -> & ->). auto.
  - destruct (loading (ui w)); [auto |]. unfold invoke.
    destruct (deposit_start_cells (ui w) w) as (-> & -> & ->). auto.
  - destruct (inflight w !! i) as [[k | k] |] eqn:Hi; [| auto | auto].
    pose proof (pending_expected w H) as Hp.
    rewrite Forall_lookup in Hp. specialize (Hp i _ Hi).
    inversion Hp as [k' [Hok Hfail] |]; subst.
    destruct (succeeded_or_failure res) as [(a & Hs & _) | (err & Hf & _)].
    + rewrite (Hok res a _ Hs). simpl.
      split; [reflexivity |]. split; [| auto].
      right. exists i, k, res, a. auto.
    + rewrite (Hfail res err _ Hf). simpl. auto.
  - destruct (inflight w !! i) as [[k | k] |] eqn:Hi; [auto | | auto].
    pose proof (pending_expected w H) as Hp.
    rewrite Forall_lookup in Hp. specialize (Hp i _ Hi).
    inversion Hp as [| r k' Hready (Hredirect & Hdirect & Hfail)]; subst.
    destruct (succeeded_or_failure res) as [(a & Hs & _) | (err & Hf & _)].
    + destruct (data_url a) as [u |] eqn:Hurl; [destruct (truthy u) eqn:Hu |].
      * rewrite (Hredirect res a u _ Hs Hurl Hu). simpl. auto.
      * rewrite (Hdirect res a _ Hs) by now rewrite Hurl. simpl. auto.
      * rewrite (Hdirect res a _ Hs) by now rewrite Hurl. simpl. auto.
    + rewrite (Hfail res err _ Hf). simpl. auto.
  - destruct (timers w !! i) as [t |] eqn:Hi; [| auto].
    pose proof (timers_expected w H) as Ht.
    rewrite Forall_lookup in Ht. specialize (Ht i _ Hi).
    destruct Ht as [u Hu | r Hready]; simpl.
    + auto.
    + destruct (fetch_start_cells r (drop_timer i w)) as (-> & -> & ->).
      simpl. auto.
Qed.

(** X5. The token held is the last value typed into the token field, and
    the empty string before any: no request, response or timer writes
    it. *)
Theorem token_is_last_typed (evs : list Event) :
  authToken (ui (reached evs)) = last_token evs.
Proof.
  induction evs as [| ev evs IH] using rev_ind.
  - reflexivity.
  - unfold reached, last_token in *. rewrite steps_snoc, fold_left_app. simpl.
    destruct (step_cells (steps mounted evs) ev (consistent_reached evs))
      as (-> & _).
    destruct ev; simpl; congruence.
Qed.

(** X6. The snapshot changes only when a fetch in flight settles with a
    body, and then it becomes that body: no other event, no start of an
    operation, no failure and no timer writes it. *)
Theorem snapshot_changes_only_on_fetch (evs : list Event) (ev : Event) :
  funds (ui (step (reached evs) ev)) = funds (ui (reached evs))
  \/ exists i k res data,
       ev = FundsSettles i res
       /\ inflight (reached evs) !! i = Some (PendingFunds k)
       /\ succeeded res = Some data
       /\ funds (ui (step (reached evs) ev)) = Some data.
Proof.
  destruct (step_cells (reached evs) ev (consistent_reached evs))
    as (_ & H & _).
  exact H.
Qed.

(** X7. An event other than an edit of the amount field leaves the amount
    as it is or clears it, and only a settled deposit or a timer clears
    it. *)
Theorem amount_kept_or_cleared (evs : list Event) (ev : Event) :
  (forall v, ev <> AmountInput v) ->
  depositAmount (ui (step (reached evs) ev)) = depositAmount (ui (reached evs))
  \/ depositAmount (ui (step (reached evs) ev)) = ""
     /\ ((exists i res, ev = DepositSettles i res) \/ exists i, ev = TimerFires i).
Proof.
  intros Hev.
  destruct (step_cells (reached evs) ev (consistent_reached evs))
    as (_ & _ & [H | [H Hkind]]).
  - left. rewrite H. destruct ev; try reflexivity. now destruct (Hev value).
  - right. split; [exact H |]. destruct ev; try contradiction; eauto.
Qed.

Lemma amount_kept_or_cleared_witness :
  let evs := [TokenInput "abc"; FundsSettles 0 savings_response;
              AmountInput "50"; DepositClick] in
  depositAmount (ui (step (reached evs) (DepositSettles 0 direct_response)))
  = depositAmount (ui (reached evs))
  \/ depositAmount (ui (step (reached evs) (DepositSettles 0 direct_response))) = ""
     /\ ((exists i res, DepositSettles 0 direct_response = DepositSettles i res)
         \/ exists i, DepositSettles 0 direct_response = TimerFires i).
Proof.
  intros evs. apply (amount_kept_or_cleared evs). discriminate.
Defined.

(* ===================================================================== *)
(** ** Settlements in any order *)
(* ===================================================================== *)

(** X8. Responses are applied in the order they arrive.  Whatever its
    position among the requests in flight, a fetch that settles leaves the
    queue and clears [loading], also when other requests still wait; with a
    body it replaces the snapshot, otherwise it keeps the snapshot and
    writes its error. *)
Theorem fetch_settles_at_any_position
    (evs : list Event) (i : nat) (res : Settled (Response FundsData)) :
  (exists k, inflight (reached evs) !! i = Some (PendingFunds k)) ->
  let w := reached evs in
  let w' := step w (FundsSettles i res) in
  loading (ui w') = false
  /\ inflight w' = delete i (inflight w)
  /\ timers w' = timers w
  /\ match succeeded res with
     | Some data => funds (ui w') = Some data /\ error (ui w') = error (ui w)
     | None =>
         funds (ui w') = funds (ui w)
         /\ exists err,
              failure res = Some err
              /\ error (ui w')
                 = ("Failed to fetch funds: " ++ message_of err)%string
     end.
Proof.
  intros [k Hi]. cbv zeta. unfold step. rewrite Hi.
  pose proof (pending_expected _ (consistent_reached evs)) as Hp.
  rewrite Forall_lookup in Hp. specialize (Hp i _ Hi).
  inversion Hp as [k' [Hok Hfail] |]; subst.
  destruct (succeeded_or_failure res) as [(a & Hs & _) | (err & Hf & Hs)];
    rewrite Hs.
  - rewrite (Hok res a _ Hs). repeat split.
  - rewrite (Hfail res err _ Hf). repeat split. exists err. split; [exact Hf | reflexivity].
Qed.

Lemma fetch_settles_at_any_position_witness :
  let w := reached [TokenInput "a"; TokenInput "ab"] in
  let w' := step w (FundsSettles 1 savings_response) in
  loading (ui w') = false
  /\ inflight w' = delete 1 (inflight w)
  /\ timers w' = timers w
  /\ match succeeded savings_response with
     | Some data => funds (ui w') = Some data /\ error (ui w') = error (ui w)
     | None =>
         funds (ui w') = funds (ui w)
         /\ exists err,
              failure savings_response = Some err
              /\ error (ui w')
                 = ("Failed to fetch funds: " ++ message_of err)%string
     end.
Proof.
  apply (fetch_settles_at_any_position
           [TokenInput "a"; TokenInput "ab"] 1 savings_response).
  eexists. reflexivity.
Defined.

(* ===================================================================== *)
(** ** A deposit from click to rest *)
(* ===================================================================== *)

Lemma settle_last_deposit
    (s : State) (e : list Effect) (l : list Pending) (t : list Timer)
    (k : Settled (Response DepositResponse) -> Cmd)
    (res : Settled (Response DepositResponse)) :
  step {| ui := s; effects := e; inflight := l ++ [PendingDeposit k]; timers := t |}
       (DepositSettles (length l) res)
  = run (k res) {| ui := s; effects := e; inflight := l; timers := t |}.
Proof.
  simpl. rewrite list_lookup_middle by reflexivity.
  unfold drop_inflight. simpl.
  rewrite (delete_middle l [] (PendingDeposit k)), app_nil_r. reflexivity.
Qed.

Lemma settle_last_fetch
    (s : State) (e : list Effect) (l : list Pending) (t : list Timer)
    (k : Settled (Response FundsData) -> Cmd)
    (res : Settled (Response FundsData)) :
  step {| ui := s; effects := e; inflight := l ++ [PendingFunds k]; timers := t |}
       (FundsSettles (length l) res)
  = run (k res) {| ui := s; effects := e; inflight := l; timers := t |}.
Proof.
  simpl. rewrite list_lookup_middle by reflexivity.
  unfold drop_inflight. simpl.
  rewrite (delete_middle l [] (PendingFunds k)), app_nil_r. reflexivity.
Qed.

Lemma fire_last_timer
    (s : State) (e : list Effect) (l : list Pending) (t : list Timer)
    (tm : Timer) :
  step {| ui := s; effects := e; inflight := l; timers := t ++ [tm] |}
       (TimerFires (length t))
  = run (callback tm) {| ui := s; effects := e; inflight := l; timers := t |}.
Proof.
  simpl. rewrite list_lookup_middle by reflexivity.
  unfold drop_timer. simpl.
  rewrite (delete_middle t [] tm), app_nil_r. reflexivity.
Qed.

(** X9. A direct deposit from click to rest.  From any idle world whose
    preconditions hold: the click, a response without a payment URL, the
    timer and the settlement of the refresh leave nothing in flight or
    scheduled that was not there before, the amount and [success] empty and
    [loading] cleared; the snapshot is the body of the refresh if it
    delivered one, and otherwise the old one next to the error of the
    refresh. *)
Theorem direct_deposit_round_trip
    (w : World) (res : Settled (Response DepositResponse))
    (responseData : DepositResponse) (res' : Settled (Response FundsData)) :
  loading (ui w) = false ->
  deposit_ready (ui w) = true ->
  succeeded res = Some responseData ->
  truthy_opt (data_url responseData) = false ->
  let n := length (inflight w) in
  let m := length (timers w) in
  let w' := steps w [DepositClick; DepositSettles n res; TimerFires m;
                     FundsSettles n res'] in
  inflight w' = inflight w
  /\ timers w' = timers w
  /\ authToken (ui w') = authToken (ui w)
  /\ depositAmount (ui w') = ""
  /\ success (ui w') = ""
  /\ loading (ui w') = false
  /\ match succeeded res' with
     | Some data =>
         funds (ui w') = Some data
         /\ error (ui w') = ""
         /\ effects w'
            = effects w
              ++ [NetCall (deposit_request (authToken (ui w))
                             (depositAmount (ui w)) (depositMode (ui w)));
                  NetCall (funds_request (authToken (ui w)))]
     | None =>
         funds (ui w') = funds (ui w)
         /\ exists err,
              failure res' = Some err
              /\ error (ui w')
                 = ("Failed to fetch funds: " ++ message_of err)%string
     end.
Proof.
  intros Hidle Hready Hres Hurl n m w'. subst n m w'.
  destruct (deposit_ready_inv _ Hready) as (Htoken & _).
  destruct w as [s e l t]. simpl in Hidle, Hready, Htoken.
  unfold steps. cbn [fold_left].
  replace (step {| ui := s; effects := e; inflight := l; timers := t |}
             DepositClick)
    with (run (depositFunds s)
            {| ui := s; effects := e; inflight := l; timers := t |})
    by (simpl; rewrite Hidle; reflexivity).
  destruct (deposit_starts s {| ui := s; effects := e; inflight := l; timers := t |}
              Hready) as (k & -> & _ & Hdirect & _).
  unfold suspend, emit, write. cbn [ui effects inflight timers].
  rewrite settle_last_deposit, (Hdirect res responseData _ Hres Hurl).
  unfold schedule, write. cbn [ui effects inflight timers].
  rewrite fire_last_timer. cbn [callback]. unfold refresh_after_deposit.
  cbn [run perform].
  match goal with
  | |- context [run (fetchFunds s) ?w0] =>
      destruct (fetch_starts s w0 Htoken) as (k' & -> & Hok & Hfail)
  end.
  unfold suspend, emit, write. cbn [ui effects inflight timers].
  rewrite settle_last_fetch.
  destruct (succeeded_or_failure res') as [(a & Hs & _) | (err & Hf & Hs)];
    rewrite Hs.
  - rewrite (Hok res' a _ Hs). simpl. rewrite <- app_assoc. repeat split.
  - rewrite (Hfail res' err _ Hf). simpl. repeat split.
    exists err. split; [exact Hf | reflexivity].
Qed.

Lemma direct_deposit_round_trip_witness :
  let w := amount_typed "50" in
  let w' := steps w [DepositClick; DepositSettles 0 direct_response; TimerFires 0;
                     FundsSettles 0 (Rejected (ErrorObject "Failed to fetch"))] in
  inflight w' = inflight w
  /\ timers w' = timers w
  /\ authToken (ui w') = authToken (ui w)
  /\ depositAmount (ui w') = ""
  /\ success (ui w') = ""
  /\ loading (ui w') = false
  /\ funds (ui w') = funds (ui w)
  /\ exists err,
       failure (Rejected (ErrorObject "Failed to fetch") : Settled (Response FundsData))
       = Some err
       /\ error (ui w') = ("Failed to fetch funds: " ++ message_of err)%string.
Proof.
  apply (direct_deposit_round_trip (amount_typed "50") direct_response direct_body
           (Rejected (ErrorObject "Failed to fetch")));
    reflexivity.
Defined.

(** X10. A gateway deposit from click to rest.  From any idle world whose
    preconditions hold: the click, a response with a payment URL and the
    timer leave nothing in flight or scheduled that was not there before;
    exactly the deposit request and the opening of the URL were added to
    the effects; the gateway-opened notice is shown, [error] and the amount
    are empty, [loading] is cleared and the snapshot is untouched. *)
Theorem gateway_deposit_round_trip
    (w : World) (res : Settled (Response DepositResponse))
    (responseData : DepositResponse) (u : string) :
  loading (ui w) = false ->
  deposit_ready (ui w) = true ->
  succeeded res = Some responseData ->
  data_url responseData = Some u ->
  u <> "" ->
  let w' := steps w [DepositClick; DepositSettles (length (inflight w)) res;
                     TimerFires (length (timers w))] in
  inflight w' = inflight w
  /\ timers w' = timers w
  /\ effects w'
     = effects w
       ++ [NetCall (deposit_request (authToken (ui w)) (depositAmount (ui w))
                      (depositMode (ui w)));
           Opened u "_blank"]
  /\ success (ui w') = GatewayOpenedNotice
  /\ error (ui w') = ""
  /\ depositAmount (ui w') = ""
  /\ loading (ui w') = false
  /\ funds (ui w') = funds (ui w)
  /\ authToken (ui w') = authToken (ui w).
Proof.
  intros Hidle Hready Hres Hurl Hu w'. subst w'. apply truthy_true in Hu.
  destruct w as [s e l t]. simpl in Hidle, Hready.
  unfold steps. cbn [fold_left].
  replace (step {| ui := s; effects := e; inflight := l; timers := t |}
             DepositClick)
    with (run (depositFunds s)
            {| ui := s; effects := e; inflight := l; timers := t |})
    by (simpl; rewrite Hidle; reflexivity).
  destruct (deposit_starts s {| ui := s; effects := e; inflight := l; timers := t |}
              Hready) as (k & -> & Hredirect & _).
  unfold suspend, emit, write. cbn [ui effects inflight timers].
  rewrite settle_last_deposit, (Hredirect res responseData u _ Hres Hurl Hu).
  unfold schedule, write. cbn [ui effects inflight timers].
  rewrite fire_last_timer. simpl. rewrite <- app_assoc. repeat split.
Qed.

Lemma gateway_deposit_round_trip_witness :
  let w := amount_typed "100" in
  let w' := steps w [DepositClick; DepositSettles (length (inflight w)) gateway_response;
                     TimerFires (length (timers w))] in
  inflight w' = inflight w
  /\ timers w' = timers w
  /\ effects w'
     = effects w
       ++ [NetCall (deposit_request (authToken (ui w)) (depositAmount (ui w))
                      (depositMode (ui w)));
           Opened "https://pay.example/x" "_blank"]
  /\ success (ui w') = GatewayOpenedNotice
  /\ error (ui w') = ""
  /\ depositAmount (ui w') = ""
  /\ loading (ui w') = false
  /\ funds (ui w') = funds (ui w)
  /\ authToken (ui w') = authToken (ui w).
Proof.
  apply (gateway_deposit_round_trip (amount_typed "100") gateway_response
           gateway_body "https://pay.example/x");
    try reflexivity. discriminate.
Defined.

(* ===================================================================== *)
(** ** What the user sees *)
(* ===================================================================== *)





(** X12. The placeholder of the first load, and a disabled button, are
    shown only while a request is in flight; the placeholder only while no
    snapshot is held. *)
Theorem busy_only_in_flight
    (toLocaleString : Number -> string) (evs : list Event) :
  let v := render toLocaleString (ui (reached evs)) in
  account_card v = Skeleton
  \/ refresh_disabled v = true
  \/ deposit_disabled v = true ->
  inflight (reached evs) <> []
  /\ (account_card v = Skeleton -> funds (ui (reached evs)) = None).
Proof.
  intros v H. split.
  - apply (loading_in_flight _ (consistent_reached evs)).
    destruct H as [H | [H | H]]; [| exact H | exact H].
    subst v. unfold render in H. simpl in H.
    destruct (loading (ui (reached evs))); [reflexivity |].
    simpl in H. destruct (funds (ui (reached evs))); discriminate H.
  - subst v. unfold render. simpl. intros Hs.
    destruct (funds (ui (reached evs))) as [f |]; [| reflexivity].
    rewrite bool_decide_true in Hs by eauto. rewrite andb_false_r in Hs.
    discriminate Hs.
Qed.

Lemma busy_only_in_flight_witness :
  inflight (reached [TokenInput "abc"]) <> []
  /\ (account_card (render (fun _ => "500") (ui (reached [TokenInput "abc"])))
      = Skeleton ->
      funds (ui (reached [TokenInput "abc"])) = None).
Proof.
  apply (busy_only_in_flight (fun _ => "500") [TokenInput "abc"]).
  left. reflexivity.
Defined.

(* ===================================================================== *)
(** ** A deposit through the amount field *)
(* ===================================================================== *)

(** X13. With a token and an amount the number field can deliver, Deposit
    sends its request exactly when the amount parses as a number greater
    than zero, and then with that number; otherwise it writes the
    InvalidAmount message and does nothing else. *)
Theorem number_field_deposit (w : World) :
  authToken (ui w) <> "" ->
  number_field_value (depositAmount (ui w)) = true ->
  if parses_positive (depositAmount (ui w))
  then
    issued_since w (invoke depositFunds w)
    = [NetCall (deposit_request (authToken (ui w)) (depositAmount (ui w))
                  (depositMode (ui w)))]
    /\ gt_zero (parseFloat (depositAmount (ui w))) = true
    /\ loading (ui (invoke depositFunds w)) = true
  else invoke depositFunds w = write (with_error InvalidAmount) w.
Proof.
  intros Htoken Hfield. apply truthy_true in Htoken.
  pose proof (deposit_amount_guard w Htoken) as H.
  rewrite (number_field_guard _ Hfield) in H.
  destruct (parses_positive (depositAmount (ui w))) eqn:Hpos; simpl in H.
  - split; [exact H |]. split; [exact Hpos |].
    assert (Hready : deposit_ready (ui w) = true).
    { unfold deposit_ready. rewrite Htoken.
      pose proof (number_field_guard _ Hfield) as Hg. rewrite Hpos in Hg.
      simpl in Hg. apply orb_false_elim in Hg as [H1 H2].
      apply negb_false_iff in H1. now rewrite H1, H2. }
    unfold invoke.
    destruct (deposit_starts (ui w) w Hready) as (k & -> & _). reflexivity.
  - exact H.
Qed.

Lemma number_field_deposit_witness :
  issued_since (amount_typed "0.5") (invoke depositFunds (amount_typed "0.5"))
  = [NetCall (deposit_request "abc" "0.5" NB)]
  /\ gt_zero (parseFloat "0.5") = true
  /\ loading (ui (invoke depositFunds (amount_typed "0.5"))) = true.
Proof.
  apply (number_field_deposit (amount_typed "0.5")).
  - discriminate.
  - reflexivity.
Defined.
